(** * The measurement pipeline of [Pipline.py]

    The script reads a table of energy-meter readings, coerces its columns
    to numbers and dates, removes duplicate and empty rows, and derives two
    aggregate tables: hourly grid totals with a peak feed-in flag per date,
    and totals per serial number ordered by grid purchase.

    The script is a sequence of pandas calls on one data frame.  Each call
    is embedded as a function on lists of rows, with the keyword arguments
    the script relies on made explicit: [errors] of [pd.to_numeric] and
    [pd.to_datetime], [keep] of [drop_duplicates] (its default, the first
    occurrence), [how] of [dropna], [dropna] and [sort] of [groupby] (their
    defaults, both true), [ascending] of [sort_values].

    Numbers.  The energy columns are 64-bit floats in pandas and NaN is the
    missing marker.  Here a cell is an [option Q]: [None] is the missing
    marker and a present value is an exact rational, compared by value
    ([Qeq]) as floats are by [==].  Rounding, infinities and the order of
    summation inside pandas are outside the model. *)

From Stdlib Require Import List Bool ZArith QArith String Ascii Lia.
From Stdlib Require Import Sorted Permutation OrderedTypeEx.
Import ListNotations.

Local Open Scope Z_scope.

(** ** Ordered keys

    [groupby] sorts its group keys: a key type comes with a three-way
    comparison.  [OrdLaws] says that the comparison decides equality and is a
    strict order. *)

Class Ord (K : Type) := { cmp : K -> K -> comparison }.

Class OrdLaws (K : Type) `{Ord K} : Prop := {
  cmp_eq : forall x y : K, cmp x y = Eq <-> x = y;
  cmp_antisym : forall x y : K, cmp y x = CompOpp (cmp x y);
  cmp_trans : forall x y z : K, cmp x y = Lt -> cmp y z = Lt -> cmp x z = Lt
}.

Definition key_eqb {K} `{Ord K} (x y : K) : bool :=
  match cmp x y with Eq => true | _ => false end.

(** Calendar dates ([datetime.date]) and timestamps ([pd.Timestamp]). *)
Record pydate := mkDate { year : Z; month : Z; day : Z }.

Record Timestamp := mkTimestamp {
  ts_date : pydate;
  ts_hour : Z;
  ts_minute : Z;
  ts_second : Z
}.

(** Lexicographic composition of comparisons. *)
Definition lex (c1 c2 : comparison) : comparison :=
  match c1 with Eq => c2 | _ => c1 end.

Definition pydate_compare (a b : pydate) : comparison :=
  lex (year a ?= year b) (lex (month a ?= month b) (day a ?= day b)).

(** A missing key sorts after every present one, as pandas places the NaN
    group last. *)
Definition option_compare {K} (c : K -> K -> comparison)
    (a b : option K) : comparison :=
  match a, b with
  | Some x, Some y => c x y
  | Some _, None => Lt
  | None, Some _ => Gt
  | None, None => Eq
  end.

Definition pair_compare {A B} (ca : A -> A -> comparison)
    (cb : B -> B -> comparison) (a b : A * B) : comparison :=
  lex (ca (fst a) (fst b)) (cb (snd a) (snd b)).

#[export] Instance Ord_Z : Ord Z := {| cmp := Z.compare |}.

#[export] Instance Ord_string : Ord string := {| cmp := String.compare |}.

#[export] Instance Ord_pydate : Ord pydate := {| cmp := pydate_compare |}.

#[export] Instance Ord_option {A} `{Ord A} : Ord (option A) :=
  {| cmp := option_compare cmp |}.

#[export] Instance Ord_pair {A B} `{Ord A} `{Ord B} : Ord (A * B) :=
  {| cmp := pair_compare cmp cmp |}.

(** ** Results of fallible calls *)

Inductive exn :=
| ValueError (cell : string).

Inductive result (A : Type) :=
| Ok (a : A)
| Raised (e : exn).
Arguments Ok {A} a.
Arguments Raised {A} e.

Definition bind {A B} (m : result A) (f : A -> result B) : result B :=
  match m with
  | Ok a => f a
  | Raised e => Raised e
  end.

Notation "x <- m ;; k" := (bind m (fun x => k))
  (at level 61, m at next level, right associativity).

(** ** Data model *)

(** A cell as [read_csv] delivers it in a text column: the text, or the
    missing marker for an empty cell. *)
Definition cell := option string.

Module Raw.
Record row := mk {
  serial : cell;
  timestamp : cell;
  date : cell;
  grid_purchase : cell;
  grid_feedin : cell;
  direct_consumption : cell
}.
End Raw.

(** A row of [df] after the conversions. *)
Module Df.
Record row := mk {
  serial : option string;
  timestamp : option Timestamp;
  date : option pydate;
  grid_purchase : option Q;
  grid_feedin : option Q;
  direct_consumption : option Q
}.

(** [df["hour"] = df["timestamp"].dt.hour]: the column is a function of the
    timestamp column, missing where the timestamp is. *)
Definition hour (r : row) : option Z := option_map ts_hour (timestamp r).
End Df.

(** A row of [hourly_totals].  The flag is missing on a row whose date is:
    [groupby("date").transform] leaves such rows without a value. *)
Module Hourly.
Record row := mk {
  date : option pydate;
  hour : option Z;
  grid_purchase : Q;
  grid_feedin : Q;
  is_peak_feed_in_hour : option bool
}.
End Hourly.

(** A row of [summary]; [serial] is its index. *)
Module Summary.
Record row := mk {
  serial : option string;
  grid_purchase : Q;
  grid_feedin : Q
}.
End Summary.

(** ** Type Normalizer *)

Inductive errors_mode := errors_raise | errors_coerce.

Section Normalizer.
(** The grammars pandas accepts for a number and for a date-time are
    library code; the conversions are parametric in them. *)
Variable parse_float : string -> option Q.
Variable parse_datetime : string -> option Timestamp.

(** One cell under [errors]: a missing cell stays missing, a cell that
    does not parse raises or becomes missing. *)
Definition convert_cell {A} (parse : string -> option A)
    (errors : errors_mode) (c : cell) : result (option A) :=
  match c with
  | None => Ok None
  | Some s =>
      match parse s with
      | Some v => Ok (Some v)
      | None =>
          match errors with
          | errors_coerce => Ok None
          | errors_raise => Raised (ValueError s)
          end
      end
  end.

Fixpoint convert_column {A} (parse : string -> option A)
    (errors : errors_mode) (column : list cell) : result (list (option A)) :=
  match column with
  | [] => Ok []
  | c :: rest =>
      v <- convert_cell parse errors c ;;
      vs <- convert_column parse errors rest ;;
      Ok (v :: vs)
  end.

Definition to_numeric (column : list cell) (errors : errors_mode) :=
  convert_column parse_float errors column.

Definition to_datetime (column : list cell) (errors : errors_mode) :=
  convert_column parse_datetime errors column.

Definition convert_to_numeric (column : list cell) :=
  to_numeric column errors_coerce.

(** [.dt.date] *)
Definition dt_date (column : list (option Timestamp)) : list (option pydate) :=
  map (option_map ts_date) column.

(** Rows of the frame from its columns. *)
Fixpoint frame (serial : list cell) (timestamp : list (option Timestamp))
    (date : list (option pydate))
    (grid_purchase grid_feedin direct_consumption : list (option Q))
    : list Df.row :=
  match serial, timestamp, date,
        grid_purchase, grid_feedin, direct_consumption with
  | s :: ss, t :: ts, d :: ds, p :: ps, f :: fs, c :: cs =>
      Df.mk s t d p f c :: frame ss ts ds ps fs cs
  | _, _, _, _, _, _ => []
  end.

(** Lines 10 to 18 of the script. *)
Definition normalize (raw : list Raw.row) : result (list Df.row) :=
  grid_purchase <- convert_to_numeric (map Raw.grid_purchase raw) ;;
  grid_feedin <- convert_to_numeric (map Raw.grid_feedin raw) ;;
  direct_consumption <- convert_to_numeric (map Raw.direct_consumption raw) ;;
  timestamp <- to_datetime (map Raw.timestamp raw) errors_coerce ;;
  date <- to_datetime (map Raw.date raw) errors_coerce ;;
  Ok (frame (map Raw.serial raw) timestamp (dt_date date)
        grid_purchase grid_feedin direct_consumption).
End Normalizer.

(** ** Cleaner *)

Definition option_eqb {A} (eqb : A -> A -> bool) (a b : option A) : bool :=
  match a, b with
  | Some x, Some y => eqb x y
  | None, None => true
  | _, _ => false
  end.

Definition pydate_eqb (a b : pydate) : bool :=
  (year a =? year b) && (month a =? month b) && (day a =? day b).

Definition Timestamp_eqb (a b : Timestamp) : bool :=
  pydate_eqb (ts_date a) (ts_date b) && (ts_hour a =? ts_hour b)
  && (ts_minute a =? ts_minute b) && (ts_second a =? ts_second b).

(** Two rows are duplicates when they agree on every column; two missing
    cells agree. *)
Definition row_eqb (a b : Df.row) : bool :=
  option_eqb String.eqb (Df.serial a) (Df.serial b)
  && option_eqb Timestamp_eqb (Df.timestamp a) (Df.timestamp b)
  && option_eqb pydate_eqb (Df.date a) (Df.date b)
  && option_eqb Qeq_bool (Df.grid_purchase a) (Df.grid_purchase b)
  && option_eqb Qeq_bool (Df.grid_feedin a) (Df.grid_feedin b)
  && option_eqb Qeq_bool (Df.direct_consumption a) (Df.direct_consumption b).

(** [df.duplicated()], [keep='first']: a row is marked when an earlier row
    equals it. *)
Fixpoint duplicated_from (seen : list Df.row) (df : list Df.row) : list bool :=
  match df with
  | [] => []
  | r :: rest => existsb (row_eqb r) seen :: duplicated_from (r :: seen) rest
  end.

Definition duplicated (df : list Df.row) : list bool := duplicated_from [] df.

(** Boolean indexing [df[mask]]. *)
Fixpoint select {A} (df : list A) (mask : list bool) : list A :=
  match df, mask with
  | r :: rest, b :: bs => if b then r :: select rest bs else select rest bs
  | _, _ => []
  end.

Definition drop_duplicates (df : list Df.row) : list Df.row :=
  select df (map negb (duplicated df)).

Definition isna {A} (c : option A) : bool :=
  match c with None => true | Some _ => false end.

(** [dropna(subset=[grid_purchase, grid_feedin, direct_consumption],
    how='all')]: a row goes when all three cells are missing. *)
Definition all_missing (r : Df.row) : bool :=
  isna (Df.grid_purchase r) && isna (Df.grid_feedin r)
  && isna (Df.direct_consumption r).

Definition dropna (df : list Df.row) : list Df.row :=
  select df (map (fun r => negb (all_missing r)) df).

(** Lines 21 and 24 of the script. *)
Definition cleaner (df : list Df.row) : list Df.row :=
  dropna (drop_duplicates df).


(** ** Grouped sums *)

(** Sum of a column with [skipna]: a missing cell adds nothing. *)
Definition skipna_add (acc : Q) (v : option Q) : Q :=
  match v with
  | Some x => (acc + x)%Q
  | None => acc
  end.

(** [Series.sum()]: the sum of no value at all is 0. *)
Definition nansum (column : list (option Q)) : Q :=
  fold_left skipna_add column 0%Q.

(** The two summed columns, [grid_purchase] and [grid_feedin]. *)
Definition add_row (acc : Q * Q) (v : option Q * option Q) : Q * Q :=
  (skipna_add (fst acc) (fst v), skipna_add (snd acc) (snd v)).

Section GroupBy.
Context {K : Type} `{Ord K}.

(** Whether a key has a missing component. *)
Variable key_isna : K -> bool.

(** One row added to the groups, which are kept in key order: its values
    go to the group of its key, opened at 0 if the key is new. *)
Fixpoint upsert (k : K) (v : option Q * option Q)
    (groups : list (K * (Q * Q))) : list (K * (Q * Q)) :=
  match groups with
  | [] => [(k, add_row (0%Q, 0%Q) v)]
  | (k', a) :: rest =>
      match cmp k k' with
      | Lt => (k, add_row (0%Q, 0%Q) v) :: groups
      | Eq => (k', add_row a v) :: rest
      | Gt => (k', a) :: upsert k v rest
      end
  end.

Definition groupby_step (dropna : bool) (groups : list (K * (Q * Q)))
    (r : K * (option Q * option Q)) : list (K * (Q * Q)) :=
  if dropna && key_isna (fst r) then groups
  else upsert (fst r) (snd r) groups.

(** [groupby(keys, sort=True, dropna=dropna)[[c1, c2]].sum()]: with
    [dropna] a row whose key has a missing component belongs to no group. *)
Definition groupby_sum (dropna : bool)
    (rows : list (K * (option Q * option Q))) : list (K * (Q * Q)) :=
  fold_left (groupby_step dropna) rows [].

(** The group of a key, by first match. *)
Fixpoint lookup (k : K) (groups : list (K * (Q * Q))) : option (Q * Q) :=
  match groups with
  | [] => None
  | (k', a) :: rest => if key_eqb k k' then Some a else lookup k rest
  end.
End GroupBy.

(** ** Hourly Aggregator *)

Definition hourly_key (r : Df.row) : option pydate * option Z :=
  (Df.date r, Df.hour r).

Definition hourly_key_isna (k : option pydate * option Z) : bool :=
  isna (fst k) || isna (snd k).

Definition flows (r : Df.row) : option Q * option Q :=
  (Df.grid_purchase r, Df.grid_feedin r).

(** Line 30: [df.groupby(["date", "hour"], as_index=False)
    [["grid_purchase", "grid_feedin"]].sum()]. *)
Definition hourly_sums (df : list Df.row)
    : list ((option pydate * option Z) * (Q * Q)) :=
  groupby_sum hourly_key_isna true (map (fun r => (hourly_key r, flows r)) df).

Definition Q_max (a b : Q) : Q := if Qle_bool a b then b else a.

(** [x.max()], missing on an empty series. *)
Definition series_max (x : list Q) : option Q :=
  match x with
  | [] => None
  | a :: rest => Some (fold_left Q_max rest a)
  end.

(** The totals of one date: the series [x] that [transform] hands to the
    lambda. *)
Definition date_partition (d : pydate)
    (sums : list ((option pydate * option Z) * (Q * Q))) : list Q :=
  map (fun g => snd (snd g))
    (filter (fun g => key_eqb (fst (fst g)) (Some d)) sums).

(** Line 33: [groupby("date")["grid_feedin"].transform(lambda x: x ==
    x.max())], the element for one row. *)
Definition peak_flag (sums : list ((option pydate * option Z) * (Q * Q)))
    (g : (option pydate * option Z) * (Q * Q)) : option bool :=
  match fst (fst g) with
  | None => None
  | Some d => option_map (Qeq_bool (snd (snd g))) (series_max (date_partition d sums))
  end.

Definition hourly_totals (df : list Df.row) : list Hourly.row :=
  let sums := hourly_sums df in
  map (fun g => Hourly.mk (fst (fst g)) (snd (fst g)) (fst (snd g))
                  (snd (snd g)) (peak_flag sums g))
    sums.

(** ** Serial Summarizer *)

(** [sort_values(by='grid_purchase', ascending=False)].  pandas leaves the
    order of equal keys to its sorting routine; here a row goes before the
    rows it ties with. *)
Fixpoint insert_desc (r : Summary.row) (sorted : list Summary.row)
    : list Summary.row :=
  match sorted with
  | [] => [r]
  | s :: rest =>
      if Qle_bool (Summary.grid_purchase s) (Summary.grid_purchase r)
      then r :: sorted
      else s :: insert_desc r rest
  end.

Definition sort_values_desc (rows : list Summary.row) : list Summary.row :=
  fold_right insert_desc [] rows.

Definition serial_sums (df : list Df.row) : list (option string * (Q * Q)) :=
  groupby_sum isna true (map (fun r => (Df.serial r, flows r)) df).

(** Line 36: [df.groupby('serial')[['grid_purchase', 'grid_feedin']].sum()
    .sort_values(by='grid_purchase', ascending=False)]. *)
Definition summary (df : list Df.row) : list Summary.row :=
  sort_values_desc
    (map (fun g => Summary.mk (fst g) (fst (snd g)) (snd (snd g)))
       (serial_sums df)).

(** ** The script *)

Record outputs := mkOutputs {
  cleaned_measurements : list Df.row;
  hourly_grid_totals_with_peak_flag : list Hourly.row;
  summary_by_serial : list Summary.row
}.

Definition pipeline (parse_float : string -> option Q)
    (parse_datetime : string -> option Timestamp)
    (raw : list Raw.row) : result outputs :=
  df <- normalize parse_float parse_datetime raw ;;
  let df := cleaner df in
  Ok (mkOutputs df (hourly_totals df) (summary df)).

(** ** Predicates of the specification *)


(** What [drop_duplicates] keeps of [df] when the rows of [seen] came
    before it. *)
Definition dedup_from (seen df : list Df.row) : list Df.row :=
  select df (map negb (duplicated_from seen df)).

(** A cell after a tolerant conversion: its parsed value, or the missing
    marker when the cell is empty or does not parse. *)
Definition coerced {A} (parse : string -> option A) (c : cell) : option A :=
  match c with
  | Some s => parse s
  | None => None
  end.

(** The rows that [groupby] assigns to the group of key [k]. *)
Definition group_rows {K} `{Ord K} (key_isna : K -> bool) (dropna : bool)
    (k : K) (rows : list (K * (option Q * option Q)))
    : list (K * (option Q * option Q)) :=
  filter (fun r => negb (dropna && key_isna (fst r)) && key_eqb (fst r) k) rows.

(** Column sums of a group, row by row. *)
Definition group_total (g : list (option Q * option Q)) : Q * Q :=
  fold_left add_row g (0%Q, 0%Q).

(** Keys in strictly increasing order. *)
Definition sorted_keys {K} `{Ord K} (keys : list K) : Prop :=
  StronglySorted (fun x y => cmp x y = Lt) keys.

(** The converted row of a raw row. *)
Definition normalize_row (parse_float : string -> option Q)
    (parse_datetime : string -> option Timestamp) (x : Raw.row) : Df.row :=
  Df.mk (Raw.serial x)
    (coerced parse_datetime (Raw.timestamp x))
    (option_map ts_date (coerced parse_datetime (Raw.date x)))
    (coerced parse_float (Raw.grid_purchase x))
    (coerced parse_float (Raw.grid_feedin x))
    (coerced parse_float (Raw.direct_consumption x)).



(** The Clean Records that share the key of an hourly bucket. *)
Definition hourly_group (df : list Df.row) (b : Hourly.row) : list Df.row :=
  filter (fun r => key_eqb (hourly_key r) (Hourly.date b, Hourly.hour b)) df.

(** The Clean Records that share the serial of a summary row. *)
Definition serial_group (df : list Df.row) (s : Summary.row) : list Df.row :=
  filter (fun r => key_eqb (Df.serial r) (Summary.serial s)) df.

(** [m] is the largest [grid_feedin] total among the buckets of date [d]. *)
Definition partition_max (totals : list Hourly.row) (d : pydate) (m : Q)
    : Prop :=
  (exists b, In b totals /\ Hourly.date b = Some d
             /\ (Hourly.grid_feedin b == m)%Q)
  /\ (forall b, In b totals -> Hourly.date b = Some d ->
       (Hourly.grid_feedin b <= m)%Q).


(** At least one of the three energy cells is present. *)
Definition has_energy (r : Df.row) : Prop :=
  Df.grid_purchase r <> None \/ Df.grid_feedin r <> None
  \/ Df.direct_consumption r <> None.

(** [s] is [l] with some elements removed, the others in their order. *)
Inductive subsequence {A : Type} : list A -> list A -> Prop :=
| sub_nil : subsequence [] []
| sub_keep x s l : subsequence s l -> subsequence (x :: s) (x :: l)
| sub_drop x s l : subsequence s l -> subsequence s (x :: l).

(** ** Worked inputs *)

Definition d_2024_01_01 : pydate := mkDate 2024 1 1.

Definition at_hour (d : pydate) (h : Z) : Timestamp := mkTimestamp d h 0 0.

Definition reading (s : string) (d : pydate) (h : Z)
    (p f c : option Q) : Df.row :=
  Df.mk (Some s) (Some (at_hour d h)) (Some d) p f c.

(** The rows of the example of the specification, after conversion: a
    reading, its exact duplicate, and a reading with no energy value. *)
Definition spec_example : list Df.row :=
  [ reading "S1" d_2024_01_01 5 (Some 10%Q) (Some 0%Q) (Some 10%Q);
    reading "S1" d_2024_01_01 5 (Some 10%Q) (Some 0%Q) (Some 10%Q);
    reading "S1" d_2024_01_01 6 None None None ].

(** Two devices on one date: hour 5 has two readings, one of them without
    feed-in; hours 6 and 7 tie for the largest feed-in. *)
Definition two_devices : list Df.row :=
  [ reading "S1" d_2024_01_01 5 (Some 10%Q) (Some 0%Q) (Some 10%Q);
    reading "S1" d_2024_01_01 5 (Some (5 # 2)%Q) None (Some 1%Q);
    reading "S2" d_2024_01_01 6 (Some 4%Q) (Some 3%Q) None;
    reading "S2" d_2024_01_01 7 None (Some 3%Q) (Some 2%Q) ].

(** A reading whose date did not parse, one whose timestamp did not, and
    one without a serial. *)
Definition undated : Df.row :=
  Df.mk (Some "S1"%string) (Some (at_hour d_2024_01_01 5)) None
    (Some 10%Q) (Some 0%Q) (Some 10%Q).

Definition untimed : Df.row :=
  Df.mk (Some "S1"%string) None (Some d_2024_01_01)
    (Some 10%Q) (Some 0%Q) (Some 10%Q).

Definition anonymous : Df.row :=
  Df.mk None (Some (at_hour d_2024_01_01 5)) (Some d_2024_01_01)
    (Some 7%Q) (Some 1%Q) None.

(** * Properties *)

(** ** The comparisons of the key columns are lawful *)

Lemma lex_Eq c1 c2 : lex c1 c2 = Eq <-> c1 = Eq /\ c2 = Eq.
Proof. destruct c1, c2; simpl; intuition congruence. Qed.

Lemma lex_Lt c1 c2 : lex c1 c2 = Lt <-> c1 = Lt \/ (c1 = Eq /\ c2 = Lt).
Proof. destruct c1, c2; simpl; intuition congruence. Qed.

Lemma lex_CompOpp c1 c2 : CompOpp (lex c1 c2) = lex (CompOpp c1) (CompOpp c2).
Proof. destruct c1, c2; reflexivity. Qed.

#[export] Instance OrdLaws_Z : OrdLaws Z.
Proof.
  split; simpl.
  - apply Z.compare_eq_iff.
  - apply Z.compare_antisym.
  - intros x y z. rewrite !Z.compare_lt_iff. lia.
Qed.

#[export] Instance OrdLaws_string : OrdLaws string.
Proof.
  split; simpl.
  - apply String_as_OT.cmp_eq.
  - intros x y. apply String.compare_antisym.
  - intros x y z Hxy Hyz. apply String_as_OT.cmp_lt.
    apply String_as_OT.cmp_lt in Hxy, Hyz.
    eapply String_as_OT.lt_trans; eassumption.
Qed.

#[export] Instance OrdLaws_pydate : OrdLaws pydate.
Proof.
  split; simpl; unfold pydate_compare.
  - intros x y. rewrite !lex_Eq, !Z.compare_eq_iff.
    destruct x, y; simpl. split.
    + intros (-> & -> & ->). reflexivity.
    + intros [= -> -> ->]. auto.
  - intros x y. rewrite !lex_CompOpp, <- !Z.compare_antisym. reflexivity.
  - intros x y z.
    rewrite !lex_Lt, ?Z.compare_lt_iff, ?Z.compare_eq_iff. lia.
Qed.

#[export] Instance OrdLaws_option {A} `{OrdLaws A} : OrdLaws (option A).
Proof.
  split; simpl.
  - intros [x|] [y|]; simpl; try (split; congruence).
    rewrite cmp_eq. split; congruence.
  - intros [x|] [y|]; simpl; try reflexivity. apply cmp_antisym.
  - intros [x|] [y|] [z|]; simpl; try congruence. apply cmp_trans.
Qed.

#[export] Instance OrdLaws_pair {A B} `{OrdLaws A} `{OrdLaws B} :
  OrdLaws (A * B).
Proof.
  split; simpl; unfold pair_compare.
  - intros [a b] [a' b']; simpl. rewrite lex_Eq, !cmp_eq. split.
    + intros [-> ->]. reflexivity.
    + intros [= -> ->]. auto.
  - intros x y. rewrite lex_CompOpp, <- !cmp_antisym. reflexivity.
  - intros x y z. rewrite !lex_Lt.
    intros [Hxy | [Hxy Hxy']] [Hyz | [Hyz Hyz']].
    + left. eapply cmp_trans; eassumption.
    + apply cmp_eq in Hyz. rewrite <- Hyz. auto.
    + apply cmp_eq in Hxy. rewrite Hxy. auto.
    + apply cmp_eq in Hxy, Hyz. right. split.
      * apply cmp_eq. congruence.
      * eapply cmp_trans; eassumption.
Qed.

Section KeyFacts.
Context {K : Type} `{OrdLaws K}.

Lemma key_eqb_eq (x y : K) : key_eqb x y = true <-> x = y.
Proof.
  unfold key_eqb. rewrite <- cmp_eq. destruct (cmp x y); split; congruence.
Qed.

Lemma key_eqb_refl (x : K) : key_eqb x x = true.
Proof. apply key_eqb_eq. reflexivity. Qed.

Lemma key_eqb_neq (x y : K) : x <> y -> key_eqb x y = false.
Proof.
  intros Hne. destruct (key_eqb x y) eqn:E; [|reflexivity].
  apply key_eqb_eq in E. contradiction.
Qed.

Lemma cmp_Gt_Lt (x y : K) : cmp x y = Gt -> cmp y x = Lt.
Proof. intros Hgt. rewrite cmp_antisym, Hgt. reflexivity. Qed.

Lemma cmp_Lt_neq (x y : K) : cmp x y = Lt -> x <> y.
Proof. intros Hlt Heq. apply cmp_eq in Heq. congruence. Qed.
End KeyFacts.

(** ** Cleaner: duplicates *)

Lemma option_eqb_refl {A} (e : A -> A -> bool) :
  (forall x, e x x = true) -> forall a, option_eqb e a a = true.
Proof. intros He [x|]; simpl; auto. Qed.

Lemma option_eqb_sym {A} (e : A -> A -> bool) :
  (forall x y, e x y = e y x) ->
  forall a b, option_eqb e a b = option_eqb e b a.
Proof. intros He [x|] [y|]; simpl; auto. Qed.

Lemma option_eqb_trans {A} (e : A -> A -> bool) :
  (forall x y z, e x y = true -> e y z = true -> e x z = true) ->
  forall a b c, option_eqb e a b = true -> option_eqb e b c = true ->
    option_eqb e a c = true.
Proof. intros He [x|] [y|] [z|]; simpl; try congruence. apply He. Qed.

Lemma pydate_eqb_eq (a b : pydate) : pydate_eqb a b = true <-> a = b.
Proof.
  unfold pydate_eqb. rewrite !andb_true_iff, !Z.eqb_eq.
  destruct a, b; simpl. split.
  - intros [[-> ->] ->]. reflexivity.
  - intros [= -> -> ->]. auto.
Qed.

Lemma Timestamp_eqb_eq (a b : Timestamp) : Timestamp_eqb a b = true <-> a = b.
Proof.
  unfold Timestamp_eqb. rewrite !andb_true_iff, !Z.eqb_eq, pydate_eqb_eq.
  destruct a, b; simpl. split.
  - intros [[[-> ->] ->] ->]. reflexivity.
  - intros [= -> -> -> ->]. auto.
Qed.

Lemma eqb_of_eq_sym {A} (e : A -> A -> bool) :
  (forall x y, e x y = true <-> x = y) -> forall x y, e x y = e y x.
Proof.
  intros He x y. destruct (e x y) eqn:Exy, (e y x) eqn:Eyx; try reflexivity.
  - apply He in Exy. subst. rewrite (proj2 (He y y) eq_refl) in Eyx. congruence.
  - apply He in Eyx. subst. rewrite (proj2 (He x x) eq_refl) in Exy. congruence.
Qed.

Lemma eqb_of_eq_trans {A} (e : A -> A -> bool) :
  (forall x y, e x y = true <-> x = y) ->
  forall x y z, e x y = true -> e y z = true -> e x z = true.
Proof. intros He x y z Hxy Hyz. apply He in Hxy, Hyz. apply He. congruence. Qed.

Lemma row_eqb_refl (a : Df.row) : row_eqb a a = true.
Proof.
  unfold row_eqb. rewrite !andb_true_iff. repeat split;
    apply option_eqb_refl; intros x.
  - apply String.eqb_refl.
  - apply Timestamp_eqb_eq. reflexivity.
  - apply pydate_eqb_eq. reflexivity.
  - apply Qeq_bool_refl.
  - apply Qeq_bool_refl.
  - apply Qeq_bool_refl.
Qed.

Lemma row_eqb_sym (a b : Df.row) : row_eqb a b = row_eqb b a.
Proof.
  unfold row_eqb.
  rewrite (option_eqb_sym String.eqb String.eqb_sym (Df.serial a)).
  rewrite (option_eqb_sym _ (eqb_of_eq_sym _ Timestamp_eqb_eq) (Df.timestamp a)).
  rewrite (option_eqb_sym _ (eqb_of_eq_sym _ pydate_eqb_eq) (Df.date a)).
  rewrite (option_eqb_sym _ Qeq_bool_comm (Df.grid_purchase a)).
  rewrite (option_eqb_sym _ Qeq_bool_comm (Df.grid_feedin a)).
  rewrite (option_eqb_sym _ Qeq_bool_comm (Df.direct_consumption a)).
  reflexivity.
Qed.

Lemma row_eqb_trans (a b c : Df.row) :
  row_eqb a b = true -> row_eqb b c = true -> row_eqb a c = true.
Proof.
  unfold row_eqb. rewrite !andb_true_iff.
  intros [[[[[Hs Ht] Hd] Hp] Hf] Hc] [[[[[Hs' Ht'] Hd'] Hp'] Hf'] Hc'].
  repeat split.
  - exact (option_eqb_trans _ (eqb_of_eq_trans _ String.eqb_eq) _ _ _ Hs Hs').
  - exact (option_eqb_trans _ (eqb_of_eq_trans _ Timestamp_eqb_eq) _ _ _ Ht Ht').
  - exact (option_eqb_trans _ (eqb_of_eq_trans _ pydate_eqb_eq) _ _ _ Hd Hd').
  - exact (option_eqb_trans _ Qeq_bool_trans _ _ _ Hp Hp').
  - exact (option_eqb_trans _ Qeq_bool_trans _ _ _ Hf Hf').
  - exact (option_eqb_trans _ Qeq_bool_trans _ _ _ Hc Hc').
Qed.

Lemma option_eqb_isna {A} (e : A -> A -> bool) (a b : option A) :
  option_eqb e a b = true -> isna a = isna b.
Proof. destruct a, b; simpl; congruence. Qed.

Lemma row_eqb_all_missing (a b : Df.row) :
  row_eqb a b = true -> all_missing a = all_missing b.
Proof.
  unfold row_eqb, all_missing. rewrite !andb_true_iff.
  intros [[[[[_ _] _] Hp] Hf] Hc].
  rewrite (option_eqb_isna _ _ _ Hp), (option_eqb_isna _ _ _ Hf),
    (option_eqb_isna _ _ _ Hc). reflexivity.
Qed.

Lemma dedup_from_cons (seen : list Df.row) (r : Df.row) (df : list Df.row) :
  dedup_from seen (r :: df) =
  if existsb (row_eqb r) seen then dedup_from (r :: seen) df
  else r :: dedup_from (r :: seen) df.
Proof.
  unfold dedup_from. simpl. destruct (existsb (row_eqb r) seen); reflexivity.
Qed.



Lemma dedup_from_unseen (df seen : list Df.row) (x : Df.row) :
  In x (dedup_from seen df) -> existsb (row_eqb x) seen = false.
Proof.
  revert seen. induction df as [|r df IH]; intros seen; [intros []|].
  rewrite dedup_from_cons.
  assert (Hrest : In x (dedup_from (r :: seen) df) ->
                  existsb (row_eqb x) seen = false).
  { intros Hin. apply IH in Hin. simpl in Hin.
    apply orb_false_iff in Hin. tauto. }
  destruct (existsb (row_eqb r) seen) eqn:E; [exact Hrest|].
  intros [<- | Hin]; auto.
Qed.

Lemma dedup_from_pairs (df seen : list Df.row) :
  ForallOrdPairs (fun a b => row_eqb a b = false) (dedup_from seen df).
Proof.
  revert seen. induction df as [|r df IH]; intros seen; [constructor|].
  rewrite dedup_from_cons.
  destruct (existsb (row_eqb r) seen); [apply IH|].
  constructor; [|apply IH].
  apply Forall_forall. intros x Hin. apply dedup_from_unseen in Hin.
  simpl in Hin. apply orb_false_iff in Hin. rewrite row_eqb_sym. tauto.
Qed.

Lemma dedup_from_id (df seen : list Df.row) :
  ForallOrdPairs (fun a b => row_eqb a b = false) df ->
  Forall (fun x => existsb (row_eqb x) seen = false) df ->
  dedup_from seen df = df.
Proof.
  revert seen. induction df as [|r df IH]; intros seen Hp Hs; [reflexivity|].
  inversion Hp as [|? ? Hr Hp']; subst. inversion Hs as [|? ? Hr' Hs']; subst.
  rewrite dedup_from_cons, Hr'. f_equal. apply IH; [assumption|].
  rewrite Forall_forall in *. intros x Hin. simpl.
  rewrite (Hs' x Hin), orb_false_r, row_eqb_sym. auto.
Qed.

Lemma dedup_from_represents (df seen : list Df.row) (r : Df.row) :
  In r df ->
  existsb (row_eqb r) seen = true
  \/ exists r', In r' (dedup_from seen df) /\ row_eqb r r' = true.
Proof.
  revert seen. induction df as [|a df IH]; intros seen; [intros []|].
  rewrite dedup_from_cons. intros [-> | Hin].
  - destruct (existsb (row_eqb r) seen) eqn:E; [auto|].
    right. exists r. split; [left; reflexivity | apply row_eqb_refl].
  - destruct (IH (a :: seen) Hin) as [Hseen | (r' & Hr' & Heq)].
    + simpl in Hseen. apply orb_true_iff in Hseen.
      destruct Hseen as [Hra | Hseen]; [|auto].
      destruct (existsb (row_eqb a) seen) eqn:E.
      * left. apply existsb_exists in E. destruct E as (s & Hs & Has).
        apply existsb_exists. exists s. split; [assumption|].
        eapply row_eqb_trans; eassumption.
      * right. exists a. split; [left; reflexivity | assumption].
    + right. exists r'. split; [|assumption].
      destruct (existsb (row_eqb a) seen); [|right]; assumption.
Qed.

Lemma select_subsequence {A} (l : list A) (mask : list bool) :
  List.length mask = List.length l -> subsequence (select l mask) l.
Proof.
  revert mask. induction l as [|x l IH]; intros [|b mask] Hlen;
    simpl in *; try discriminate; [constructor|].
  injection Hlen as Hlen. destruct b; constructor; auto.
Qed.

Lemma length_duplicated_from (df seen : list Df.row) :
  List.length (duplicated_from seen df) = List.length df.
Proof.
  revert seen. induction df as [|r df IH]; intros seen; simpl; auto.
Qed.

Lemma select_map {A} (f : A -> bool) (l : list A) :
  select l (map f l) = filter f l.
Proof.
  induction l as [|x l IH]; [reflexivity|]. simpl. rewrite IH.
  destruct (f x); reflexivity.
Qed.

Lemma dropna_filter (df : list Df.row) :
  dropna df = filter (fun r => negb (all_missing r)) df.
Proof. apply select_map. Qed.

Lemma pairs_filter {A} (R : A -> A -> Prop) (f : A -> bool) (l : list A) :
  ForallOrdPairs R l -> ForallOrdPairs R (filter f l).
Proof.
  induction 1 as [|x l Hx Hl IH]; simpl; [constructor|].
  destruct (f x); [|assumption]. constructor; [|assumption].
  rewrite Forall_forall in *. intros y Hy. apply filter_In in Hy.
  apply Hx. tauto.
Qed.


Lemma has_energy_iff (r : Df.row) : has_energy r <-> all_missing r = false.
Proof.
  unfold has_energy, all_missing.
  destruct (Df.grid_purchase r), (Df.grid_feedin r), (Df.direct_consumption r);
    simpl; split; intros Hyp; try reflexivity; try discriminate;
    try (left; discriminate); try (right; left; discriminate);
    try (right; right; discriminate).
  destruct Hyp as [Hyp | [Hyp | Hyp]]; contradiction.
Qed.

Lemma drop_duplicates_dedup (df : list Df.row) :
  drop_duplicates df = dedup_from [] df.
Proof. reflexivity. Qed.

Lemma drop_duplicates_pairs (df : list Df.row) :
  ForallOrdPairs (fun a b => row_eqb a b = false) (drop_duplicates df).
Proof. apply dedup_from_pairs. Qed.

Lemma cleaner_pairs (df : list Df.row) :
  ForallOrdPairs (fun a b => row_eqb a b = false) (cleaner df).
Proof.
  unfold cleaner. rewrite dropna_filter.
  apply pairs_filter, drop_duplicates_pairs.
Qed.


(** C5.  Every row of the Clean Record set has at least one energy cell
    present; the all-missing filter keeps exactly the rows of its input that
    have one; and a row of the input that has one is represented in the
    Clean Record set, by itself or by the identical row that came first. *)
Theorem cleaner_energy_filter (df : list Df.row) (r : Df.row) :
  (In r (cleaner df) -> has_energy r)
  /\ (In r (dropna df) <-> In r df /\ has_energy r)
  /\ (In r df -> has_energy r ->
      exists r', In r' (cleaner df) /\ row_eqb r r' = true).
Proof.
  unfold cleaner. rewrite !dropna_filter, !filter_In, !has_energy_iff.
  rewrite negb_true_iff. split; [tauto|]. split; [tauto|].
  intros Hin Hr.
  destruct (dedup_from_represents df [] r Hin) as [Hseen | (r' & Hr' & Heq)];
    [discriminate|].
  exists r'. rewrite filter_In. repeat split; try assumption.
  rewrite <- (row_eqb_all_missing _ _ Heq), Hr. reflexivity.
Qed.

(** C7.  The Cleaner is idempotent. *)
Theorem cleaner_idempotent (df : list Df.row) :
  cleaner (cleaner df) = cleaner df.
Proof.
  unfold cleaner at 1.
  rewrite drop_duplicates_dedup, dedup_from_id.
  - unfold cleaner. rewrite !dropna_filter.
    apply forallb_filter_id, forallb_filter.
  - apply cleaner_pairs.
  - apply Forall_forall. reflexivity.
Qed.

(** ** Type Normalizer *)

Section NormalizerFacts.
Variable parse_float : string -> option Q.
Variable parse_datetime : string -> option Timestamp.

Lemma convert_cell_coerce {A} (parse : string -> option A) (c : cell) :
  convert_cell parse errors_coerce c = Ok (coerced parse c).
Proof. destruct c as [s|]; simpl; [destruct (parse s)|]; reflexivity. Qed.

Lemma convert_column_coerce {A} (parse : string -> option A)
    (column : list cell) :
  convert_column parse errors_coerce column = Ok (map (coerced parse) column).
Proof.
  induction column as [|c column IH]; [reflexivity|].
  simpl. rewrite convert_cell_coerce, IH. reflexivity.
Qed.

(** With [errors='raise'] the first cell that does not parse stops the
    conversion. *)
Lemma convert_column_raise {A} (parse : string -> option A) (s : string)
    (column : list cell) :
  parse s = None ->
  convert_column parse errors_raise (Some s :: column) = Raised (ValueError s).
Proof. intros Hs. simpl. rewrite Hs. reflexivity. Qed.

Lemma frame_map (raw : list Raw.row) :
  frame (map Raw.serial raw)
    (map (coerced parse_datetime) (map Raw.timestamp raw))
    (dt_date (map (coerced parse_datetime) (map Raw.date raw)))
    (map (coerced parse_float) (map Raw.grid_purchase raw))
    (map (coerced parse_float) (map Raw.grid_feedin raw))
    (map (coerced parse_float) (map Raw.direct_consumption raw))
  = map (normalize_row parse_float parse_datetime) raw.
Proof.
  unfold dt_date. induction raw as [|x raw IH]; [reflexivity|].
  cbn [map frame]. rewrite IH. reflexivity.
Qed.

Lemma normalize_map (raw : list Raw.row) :
  normalize parse_float parse_datetime raw
  = Ok (map (normalize_row parse_float parse_datetime) raw).
Proof.
  unfold normalize, convert_to_numeric, to_numeric, to_datetime.
  rewrite !convert_column_coerce. unfold bind. f_equal. apply frame_map.
Qed.
End NormalizerFacts.


(** The script as a whole returns its three tables for every raw input. *)
Lemma pipeline_returns (parse_float : string -> option Q)
    (parse_datetime : string -> option Timestamp) (raw : list Raw.row) :
  exists out, pipeline parse_float parse_datetime raw = Ok out.
Proof.
  unfold pipeline. rewrite normalize_map. simpl. eexists. reflexivity.
Qed.

(** ** Grouped sums *)

Section GroupByFacts.
Context {K : Type} `{OrdLaws K}.
Variable key_isna : K -> bool.

Lemma upsert_keys (k : K) v groups x :
  In x (map fst (upsert k v groups)) -> x = k \/ In x (map fst groups).
Proof.
  induction groups as [|[k' a] rest IH]; simpl.
  - intros [<- | []]. auto.
  - destruct (cmp k k') eqn:E; simpl.
    + tauto.
    + intros [<- | Hx]; auto.
    + intros [Hx | Hx]; [tauto|]. apply IH in Hx. tauto.
Qed.

Lemma upsert_sorted (k : K) v groups :
  sorted_keys (map fst groups) -> sorted_keys (map fst (upsert k v groups)).
Proof.
  unfold sorted_keys.
  induction groups as [|[k' a] rest IH]; simpl; intros Hs.
  - repeat constructor.
  - inversion Hs as [|? ? Hrest Hk']; subst.
    destruct (cmp k k') eqn:E; simpl.
    + constructor; assumption.
    + constructor; [assumption|]. constructor; [assumption|].
      eapply Forall_impl; [|exact Hk']. intros x. apply cmp_trans. exact E.
    + constructor; [auto|]. apply Forall_forall. intros x Hx.
      apply upsert_keys in Hx. destruct Hx as [-> | Hx].
      * apply cmp_Gt_Lt. exact E.
      * rewrite Forall_forall in Hk'. auto.
Qed.

Lemma lookup_below (k : K) groups :
  Forall (fun x => cmp k x = Lt) (map fst groups) -> lookup k groups = None.
Proof.
  induction groups as [|[k' a] rest IH]; simpl; intros Hall; [reflexivity|].
  inversion Hall as [|? ? Hk' Hrest]; subst.
  rewrite key_eqb_neq by (apply cmp_Lt_neq; assumption). auto.
Qed.

Lemma upsert_lookup_same (k : K) v groups :
  sorted_keys (map fst groups) ->
  lookup k (upsert k v groups) =
  Some (add_row (match lookup k groups with
                 | Some a => a
                 | None => (0%Q, 0%Q)
                 end) v).
Proof.
  unfold sorted_keys.
  induction groups as [|[k' a] rest IH]; simpl; intros Hs.
  - rewrite key_eqb_refl. reflexivity.
  - inversion Hs as [|? ? Hrest Hk']; subst.
    destruct (cmp k k') eqn:E; simpl.
    + assert (Hk : key_eqb k k' = true) by (unfold key_eqb; rewrite E; reflexivity).
      rewrite Hk. reflexivity.
    + assert (Hk : key_eqb k k' = false) by (unfold key_eqb; rewrite E; reflexivity).
      rewrite key_eqb_refl, Hk. rewrite lookup_below; [reflexivity|].
      eapply Forall_impl; [|exact Hk']. intros x. apply cmp_trans. exact E.
    + assert (Hk : key_eqb k k' = false) by (unfold key_eqb; rewrite E; reflexivity).
      rewrite Hk. auto.
Qed.

Lemma upsert_lookup_other (k j : K) v groups :
  j <> k -> lookup j (upsert k v groups) = lookup j groups.
Proof.
  intros Hne. induction groups as [|[k' a] rest IH]; simpl.
  - rewrite key_eqb_neq by assumption. reflexivity.
  - destruct (cmp k k') eqn:E; simpl.
    + apply cmp_eq in E. subst k'.
      rewrite key_eqb_neq by assumption. reflexivity.
    + rewrite key_eqb_neq by assumption. reflexivity.
    + rewrite IH. reflexivity.
Qed.

Lemma lookup_In (k : K) a groups :
  sorted_keys (map fst groups) ->
  (In (k, a) groups <-> lookup k groups = Some a).
Proof.
  unfold sorted_keys.
  induction groups as [|[k' a'] rest IH]; simpl; intros Hs.
  - split; [tauto | discriminate].
  - inversion Hs as [|? ? Hrest Hk']; subst. specialize (IH Hrest).
    destruct (key_eqb k k') eqn:E.
    + apply key_eqb_eq in E. subst k'. split.
      * intros [[= ->] | Hin]; [reflexivity|].
        rewrite Forall_forall in Hk'.
        apply (in_map fst) in Hin. apply Hk', cmp_Lt_neq in Hin.
        contradiction Hin. reflexivity.
      * intros [= ->]. auto.
    + rewrite <- IH. split; [|tauto].
      intros [[= -> ->] | Hin]; [|assumption].
      rewrite key_eqb_refl in E. discriminate.
Qed.

Lemma groupby_sum_snoc dropna rows r :
  groupby_sum key_isna dropna (rows ++ [r]) =
  groupby_step key_isna dropna (groupby_sum key_isna dropna rows) r.
Proof. unfold groupby_sum. rewrite fold_left_app. reflexivity. Qed.

Lemma groupby_sum_sorted dropna rows :
  sorted_keys (map fst (groupby_sum key_isna dropna rows)).
Proof.
  induction rows as [|r rows IH] using rev_ind.
  - constructor.
  - rewrite groupby_sum_snoc. unfold groupby_step.
    destruct (dropna && key_isna (fst r)); [assumption|].
    apply upsert_sorted. assumption.
Qed.

Lemma group_rows_snoc dropna k rows r :
  group_rows key_isna dropna k (rows ++ [r]) =
  group_rows key_isna dropna k rows ++
  (if negb (dropna && key_isna (fst r)) && key_eqb (fst r) k then [r] else []).
Proof. unfold group_rows. rewrite filter_app. reflexivity. Qed.

Lemma group_total_snoc g v :
  group_total (g ++ [v]) = add_row (group_total g) v.
Proof. unfold group_total. rewrite fold_left_app. reflexivity. Qed.

(** The group of every key holds the sums of the rows assigned to it, and a
    key with no row has no group. *)
Lemma groupby_sum_lookup dropna rows (k : K) :
  lookup k (groupby_sum key_isna dropna rows) =
  match group_rows key_isna dropna k rows with
  | [] => None
  | g => Some (group_total (map snd g))
  end.
Proof.
  induction rows as [|r rows IH] using rev_ind; [reflexivity|].
  rewrite groupby_sum_snoc, group_rows_snoc. unfold groupby_step.
  destruct (dropna && key_isna (fst r)); cbn [negb andb].
  - rewrite app_nil_r. exact IH.
  - destruct (key_eqb (fst r) k) eqn:E.
    + apply key_eqb_eq in E. subst k.
      rewrite upsert_lookup_same by apply groupby_sum_sorted.
      rewrite IH.
      destruct (group_rows key_isna dropna (fst r) rows) as [|p g];
        [reflexivity|].
      cbn [app]. f_equal. rewrite <- group_total_snoc.
      cbn [map]. rewrite map_app. reflexivity.
    + rewrite app_nil_r, upsert_lookup_other; [exact IH|].
      intros ->. rewrite key_eqb_refl in E. discriminate.
Qed.

Lemma groupby_sum_In dropna rows (k : K) a :
  In (k, a) (groupby_sum key_isna dropna rows) <->
  group_rows key_isna dropna k rows <> []
  /\ a = group_total (map snd (group_rows key_isna dropna k rows)).
Proof.
  rewrite lookup_In by apply groupby_sum_sorted.
  rewrite groupby_sum_lookup.
  destruct (group_rows key_isna dropna k rows); split.
  - discriminate.
  - intros [Hne _]. contradiction Hne. reflexivity.
  - intros [= <-]. split; [discriminate | reflexivity].
  - intros [_ ->]. reflexivity.
Qed.

(** With [dropna] no group has a key with a missing component. *)
Lemma groupby_sum_dropna rows (k : K) a :
  In (k, a) (groupby_sum key_isna true rows) -> key_isna k = false.
Proof.
  intros Hin. apply groupby_sum_In in Hin. destruct Hin as [Hne _].
  destruct (group_rows key_isna true k rows) as [|r g] eqn:G; [congruence|].
  assert (Hr : In r (group_rows key_isna true k rows)) by (rewrite G; left; reflexivity).
  unfold group_rows in Hr. apply filter_In in Hr. destruct Hr as [_ Hr].
  apply andb_true_iff in Hr. destruct Hr as [Hna Hk].
  apply key_eqb_eq in Hk. subst k. simpl in Hna.
  apply negb_true_iff in Hna. exact Hna.
Qed.

Lemma group_rows_present rows (k : K) :
  key_isna k = false ->
  group_rows key_isna true k rows = filter (fun r => key_eqb (fst r) k) rows.
Proof.
  intros Hk. unfold group_rows. apply filter_ext_in. intros r _.
  destruct (key_eqb (fst r) k) eqn:E; [|apply andb_false_r].
  apply key_eqb_eq in E. rewrite E, Hk. reflexivity.
Qed.

(** Rows with a missing key component do not change the result. *)
Lemma groupby_sum_filter rows :
  groupby_sum key_isna true rows =
  groupby_sum key_isna true (filter (fun r => negb (key_isna (fst r))) rows).
Proof.
  unfold groupby_sum. generalize (@nil (K * (Q * Q))) as groups.
  induction rows as [|r rows IH]; intros groups; [reflexivity|].
  cbn [fold_left filter]. unfold groupby_step at 2. cbn [andb].
  destruct (key_isna (fst r)) eqn:E; cbn [negb]; [apply IH|].
  cbn [fold_left]. unfold groupby_step at 3. rewrite E. apply IH.
Qed.
End GroupByFacts.

Lemma fold_add_row_fst (g : list (option Q * option Q)) (acc : Q * Q) :
  fst (fold_left add_row g acc) = fold_left skipna_add (map fst g) (fst acc).
Proof.
  revert acc. induction g as [|v g IH]; intros acc; [reflexivity|].
  simpl. rewrite IH. reflexivity.
Qed.

Lemma fold_add_row_snd (g : list (option Q * option Q)) (acc : Q * Q) :
  snd (fold_left add_row g acc) = fold_left skipna_add (map snd g) (snd acc).
Proof.
  revert acc. induction g as [|v g IH]; intros acc; [reflexivity|].
  simpl. rewrite IH. reflexivity.
Qed.

Lemma group_total_fst (g : list (option Q * option Q)) :
  fst (group_total g) = nansum (map fst g).
Proof. apply fold_add_row_fst. Qed.

Lemma group_total_snd (g : list (option Q * option Q)) :
  snd (group_total g) = nansum (map snd g).
Proof. apply fold_add_row_snd. Qed.



Lemma fold_skipna_missing (column : list (option Q)) (acc : Q) :
  (forall v, In v column -> v = None) -> fold_left skipna_add column acc = acc.
Proof.
  revert acc. induction column as [|v column IH]; intros acc Hall;
    [reflexivity|].
  simpl. rewrite (Hall v) by (left; reflexivity). simpl.
  apply IH. intros w Hw. apply Hall. right. exact Hw.
Qed.

(** The sum of a column of missing values is 0. *)
Lemma nansum_missing (column : list (option Q)) :
  (forall v, In v column -> v = None) -> nansum column = 0%Q.
Proof. apply fold_skipna_missing. Qed.

(** Groups of the frame [df] under a key column. *)
Section FrameGroups.
Context {K : Type} `{OrdLaws K}.
Variable key_isna : K -> bool.
Variable key : Df.row -> K.

Lemma frame_group_rows (df : list Df.row) (k : K) :
  map snd (filter (fun x => key_eqb (fst x) k)
             (map (fun r => (key r, flows r)) df))
  = map flows (filter (fun r => key_eqb (key r) k) df).
Proof. rewrite filter_map_swap, map_map. reflexivity. Qed.

Lemma frame_groupby_In (df : list Df.row) (k : K) (a : Q * Q) :
  In (k, a) (groupby_sum key_isna true (map (fun r => (key r, flows r)) df))
  <-> key_isna k = false
      /\ filter (fun r => key_eqb (key r) k) df <> []
      /\ a = (nansum (map Df.grid_purchase
                        (filter (fun r => key_eqb (key r) k) df)),
              nansum (map Df.grid_feedin
                        (filter (fun r => key_eqb (key r) k) df))).
Proof.
  assert (Htotal : forall g : list Df.row,
             group_total (map flows g)
             = (nansum (map Df.grid_purchase g), nansum (map Df.grid_feedin g))).
  { intros g. rewrite (surjective_pairing (group_total (map flows g))).
    rewrite group_total_fst, group_total_snd, !map_map. reflexivity. }
  assert (Hne : forall g : list Df.row,
             map (fun r => (key r, flows r)) g <> [] <-> g <> []).
  { intros [|r g]; simpl; split; congruence. }
  split.
  - intros Hin. pose proof (groupby_sum_dropna _ _ _ _ Hin) as Hk.
    apply groupby_sum_In in Hin.
    rewrite (group_rows_present _ _ _ Hk) in Hin.
    rewrite frame_group_rows, Htotal, filter_map_swap, Hne in Hin.
    tauto.
  - intros (Hk & Hg & ->). apply groupby_sum_In.
    rewrite (group_rows_present _ _ _ Hk).
    rewrite frame_group_rows, Htotal, filter_map_swap, Hne. tauto.
Qed.

Lemma frame_groupby_filter (df : list Df.row) :
  groupby_sum key_isna true (map (fun r => (key r, flows r)) df)
  = groupby_sum key_isna true
      (map (fun r => (key r, flows r))
         (filter (fun r => negb (key_isna (key r))) df)).
Proof. rewrite groupby_sum_filter, filter_map_swap. reflexivity. Qed.
End FrameGroups.

(** ** Hourly Aggregator *)

Lemma hourly_sums_In (df : list Df.row) k a :
  In (k, a) (hourly_sums df)
  <-> hourly_key_isna k = false
      /\ filter (fun r => key_eqb (hourly_key r) k) df <> []
      /\ a = (nansum (map Df.grid_purchase
                        (filter (fun r => key_eqb (hourly_key r) k) df)),
              nansum (map Df.grid_feedin
                        (filter (fun r => key_eqb (hourly_key r) k) df))).
Proof. apply frame_groupby_In. Qed.

Lemma hourly_totals_In (df : list Df.row) (b : Hourly.row) :
  In b (hourly_totals df)
  <-> exists k a, In (k, a) (hourly_sums df)
        /\ b = Hourly.mk (fst k) (snd k) (fst a) (snd a)
                 (peak_flag (hourly_sums df) (k, a)).
Proof.
  unfold hourly_totals. cbv zeta. rewrite in_map_iff. split.
  - intros ([k a] & <- & Hin). exists k, a. auto.
  - intros (k & a & Hin & ->). exists (k, a). auto.
Qed.

Lemma hourly_key_present (k : option pydate * option Z) :
  hourly_key_isna k = false <-> exists d h, k = (Some d, Some h).
Proof.
  destruct k as [[d|] [h|]]; unfold hourly_key_isna; simpl; split;
    try discriminate; try reflexivity.
  - intros _. exists d, h. reflexivity.
  - intros (d' & h' & [=]).
  - intros (d' & h' & [=]).
  - intros (d' & h' & [=]).
Qed.

Lemma hourly_totals_row (df : list Df.row) (b : Hourly.row) :
  In b (hourly_totals df) ->
  hourly_key_isna (Hourly.date b, Hourly.hour b) = false
  /\ hourly_group df b <> []
  /\ Hourly.grid_purchase b = nansum (map Df.grid_purchase (hourly_group df b))
  /\ Hourly.grid_feedin b = nansum (map Df.grid_feedin (hourly_group df b))
  /\ Hourly.is_peak_feed_in_hour b
     = peak_flag (hourly_sums df)
         ((Hourly.date b, Hourly.hour b),
          (Hourly.grid_purchase b, Hourly.grid_feedin b)).
Proof.
  intros Hin. apply hourly_totals_In in Hin.
  destruct Hin as ([d h] & [p f] & Hin & ->). unfold hourly_group. simpl.
  apply hourly_sums_In in Hin. destruct Hin as (Hk & Hg & [= -> ->]).
  auto.
Qed.

Lemma hourly_group_In (df : list Df.row) (b : Hourly.row) (r : Df.row) :
  In r (hourly_group df b)
  <-> In r df /\ hourly_key r = (Hourly.date b, Hourly.hour b).
Proof. unfold hourly_group. rewrite filter_In, key_eqb_eq. reflexivity. Qed.



Lemma hourly_totals_of_sums (df df' : list Df.row) :
  hourly_sums df = hourly_sums df' -> hourly_totals df = hourly_totals df'.
Proof. unfold hourly_totals. intros ->. reflexivity. Qed.

(** C1, as the specification states it, fails: a Clean Record whose date is
    missing is in no bucket of the hourly totals.  [groupby] runs with its
    default [dropna=True]. *)
Lemma missing_date_row_has_no_bucket :
  In undated (cleaner [undated])
  /\ Df.date undated = None
  /\ hourly_totals (cleaner [undated]) = []
  /\ ~ (exists b, In b (hourly_totals (cleaner [undated]))
                  /\ Hourly.date b = Df.date undated
                  /\ Hourly.hour b = Df.hour undated).
Proof.
  split; [left; reflexivity|]. split; [reflexivity|].
  split; [reflexivity|]. intros (b & Hin & _). exact Hin.
Qed.

(** C1, amended.  The Hourly Aggregator drops the records whose date or
    hour is missing: every bucket has a date and an hour, the table is the
    one computed from the records that have both, and every record that has
    both is in the bucket of its date and hour. *)
Theorem hourly_totals_drops_missing_keys (df : list Df.row) :
  (forall b, In b (hourly_totals df) ->
     exists d h, Hourly.date b = Some d /\ Hourly.hour b = Some h)
  /\ hourly_totals df
     = hourly_totals
         (filter (fun r => negb (isna (Df.date r) || isna (Df.hour r))) df)
  /\ (forall r d h, In r df -> Df.date r = Some d -> Df.hour r = Some h ->
        exists b, In b (hourly_totals df)
                  /\ Hourly.date b = Some d /\ Hourly.hour b = Some h
                  /\ In r (hourly_group df b)).
Proof.
  repeat split.
  - intros b Hin. apply hourly_totals_row in Hin. destruct Hin as (Hk & _).
    apply hourly_key_present in Hk. destruct Hk as (d & h & [= -> ->]).
    exists d, h. auto.
  - apply hourly_totals_of_sums.
    apply (frame_groupby_filter hourly_key_isna hourly_key).
  - intros r d h Hin Hd Hh.
    set (k := (Some d, Some h)).
    set (g := filter (fun x => key_eqb (hourly_key x) k) df).
    assert (Hr : In r g).
    { apply filter_In. split; [assumption|]. apply key_eqb_eq.
      unfold hourly_key. rewrite Hd, Hh. reflexivity. }
    assert (Hs : In (k, (nansum (map Df.grid_purchase g),
                         nansum (map Df.grid_feedin g))) (hourly_sums df)).
    { apply hourly_sums_In. repeat split; try reflexivity.
      intros Hnil. fold g in Hnil. rewrite Hnil in Hr. exact Hr. }
    eexists. split.
    + apply hourly_totals_In. eexists _, _. split; [exact Hs | reflexivity].
    + simpl. repeat split. exact Hr.
Qed.

(** ** Serial Summarizer *)

Lemma insert_desc_In (r x : Summary.row) (sorted : list Summary.row) :
  In x (insert_desc r sorted) <-> x = r \/ In x sorted.
Proof.
  induction sorted as [|s rest IH]; simpl.
  - intuition.
  - destruct (Qle_bool (Summary.grid_purchase s) (Summary.grid_purchase r));
      simpl; rewrite ?IH; intuition.
Qed.

Lemma sort_values_desc_In (x : Summary.row) (rows : list Summary.row) :
  In x (sort_values_desc rows) <-> In x rows.
Proof.
  induction rows as [|r rows IH]; simpl; [reflexivity|].
  rewrite insert_desc_In, IH. intuition.
Qed.

Lemma Qle_bool_false (x y : Q) : Qle_bool x y = false -> (y <= x)%Q.
Proof.
  intros Hle. apply Qlt_le_weak, Qnot_le_lt. intros Hxy.
  apply Qle_bool_iff in Hxy. congruence.
Qed.






Lemma summary_In (df : list Df.row) (s : Summary.row) :
  In s (summary df) ->
  Summary.serial s <> None
  /\ serial_group df s <> []
  /\ Summary.grid_purchase s = nansum (map Df.grid_purchase (serial_group df s))
  /\ Summary.grid_feedin s = nansum (map Df.grid_feedin (serial_group df s)).
Proof.
  unfold summary. rewrite sort_values_desc_In, in_map_iff.
  intros ([k [p f]] & <- & Hin). unfold serial_sums in Hin.
  apply (frame_groupby_In isna Df.serial) in Hin.
  destruct Hin as (Hk & Hg & [= -> ->]). unfold serial_group. simpl.
  repeat split; try assumption; try reflexivity.
  intros ->. discriminate.
Qed.

Lemma serial_group_In (df : list Df.row) (s : Summary.row) (r : Df.row) :
  In r (serial_group df s) <-> In r df /\ Df.serial r = Summary.serial s.
Proof. unfold serial_group. rewrite filter_In, key_eqb_eq. reflexivity. Qed.

(** C10.  A Clean Record without a serial is left out of the Serial
    Summary: no row of the summary has a missing serial, the summary is the
    one computed without the records that lack a serial, and the totals of
    a row are sums over records that have exactly its serial. *)
Theorem summary_excludes_missing_serial (df : list Df.row) :
  (forall s, In s (summary df) -> Summary.serial s <> None)
  /\ summary df = summary (filter (fun r => negb (isna (Df.serial r))) df)
  /\ (forall s, In s (summary df) ->
        (forall r, In r (serial_group df s)
                   <-> In r df /\ Df.serial r = Summary.serial s)
        /\ (forall r, In r (serial_group df s) -> Df.serial r <> None)
        /\ Summary.grid_purchase s
           = nansum (map Df.grid_purchase (serial_group df s))
        /\ Summary.grid_feedin s
           = nansum (map Df.grid_feedin (serial_group df s))).
Proof.
  split; [|split].
  - intros s Hin. apply summary_In in Hin. tauto.
  - unfold summary, serial_sums.
    rewrite (frame_groupby_filter isna Df.serial df). reflexivity.
  - intros s Hin. apply summary_In in Hin.
    destruct Hin as (Hs & _ & Hp & Hf).
    split; [intros r; apply serial_group_In|].
    split; [|split; assumption].
    intros r Hr. apply serial_group_In in Hr. destruct Hr as [_ ->].
    exact Hs.
Qed.

(** ** Totals of groups without values *)

Lemma nansum_column_missing {A} (column : A -> option Q) (g : list A) :
  (forall r, In r g -> column r = None) -> nansum (map column g) = 0%Q.
Proof.
  intros Hall. apply nansum_missing. intros v Hv.
  apply in_map_iff in Hv. destruct Hv as (r & <- & Hr). auto.
Qed.

(** C9.  When no record of a group has a value for a flow field, the total
    of the group for that field is 0, in the hourly totals and in the
    summary alike.  The total is then the one of a group whose values are
    all zero: the two frames given as examples have the same hourly totals
    and the same summary. *)
Theorem all_missing_total_is_zero (df : list Df.row) :
  (forall b, In b (hourly_totals df) ->
     ((forall r, In r (hourly_group df b) -> Df.grid_purchase r = None) ->
      Hourly.grid_purchase b = 0%Q)
     /\ ((forall r, In r (hourly_group df b) -> Df.grid_feedin r = None) ->
         Hourly.grid_feedin b = 0%Q))
  /\ (forall s, In s (summary df) ->
        ((forall r, In r (serial_group df s) -> Df.grid_purchase r = None) ->
         Summary.grid_purchase s = 0%Q)
        /\ ((forall r, In r (serial_group df s) -> Df.grid_feedin r = None) ->
            Summary.grid_feedin s = 0%Q))
  /\ (let missing := [reading "S1" d_2024_01_01 5 (Some 10%Q) None (Some 10%Q)] in
      let zero := [reading "S1" d_2024_01_01 5 (Some 10%Q) (Some 0%Q) (Some 10%Q)] in
      hourly_totals missing = hourly_totals zero
      /\ summary missing = summary zero
      /\ map Hourly.grid_feedin (hourly_totals missing) = [0%Q]
      /\ map Summary.grid_feedin (summary missing) = [0%Q]).
Proof.
  split; [|split].
  - intros b Hin. apply hourly_totals_row in Hin.
    destruct Hin as (_ & _ & -> & -> & _).
    split; apply nansum_column_missing.
  - intros s Hin. apply summary_In in Hin.
    destruct Hin as (_ & _ & -> & ->).
    split; apply nansum_column_missing.
  - repeat split; reflexivity.
Qed.

(** ** Peak flag *)

Lemma Q_max_ge_l (a b : Q) : (a <= Q_max a b)%Q.
Proof.
  unfold Q_max. destruct (Qle_bool a b) eqn:E.
  - apply Qle_bool_iff. exact E.
  - apply Qle_refl.
Qed.

Lemma Q_max_ge_r (a b : Q) : (b <= Q_max a b)%Q.
Proof.
  unfold Q_max. destruct (Qle_bool a b) eqn:E.
  - apply Qle_refl.
  - apply Qle_bool_false. exact E.
Qed.

Lemma Q_max_cases (a b : Q) : Q_max a b = a \/ Q_max a b = b.
Proof. unfold Q_max. destruct (Qle_bool a b); auto. Qed.

Lemma fold_Q_max (x : list Q) (a : Q) :
  (fold_left Q_max x a = a \/ In (fold_left Q_max x a) x)
  /\ (a <= fold_left Q_max x a)%Q
  /\ (forall v, In v x -> (v <= fold_left Q_max x a)%Q).
Proof.
  revert a. induction x as [|b x IH]; intros a; simpl.
  - split; [auto|]. split; [apply Qle_refl | tauto].
  - destruct (IH (Q_max a b)) as (Hin & Hge & Hall).
    split; [|split].
    + destruct Hin as [Hin | Hin]; [|auto].
      rewrite Hin. destruct (Q_max_cases a b) as [-> | ->]; auto.
    + eapply Qle_trans; [apply Q_max_ge_l | exact Hge].
    + intros v [<- | Hv]; [|auto].
      eapply Qle_trans; [apply Q_max_ge_r | exact Hge].
Qed.

Lemma series_max_spec (x : list Q) (v : Q) :
  In v x ->
  exists m, series_max x = Some m /\ In m x /\ (forall w, In w x -> (w <= m)%Q).
Proof.
  destruct x as [|a x]; [intros []|]. intros _.
  destruct (fold_Q_max x a) as (Hin & Hge & Hall).
  exists (fold_left Q_max x a). split; [reflexivity|]. split.
  - simpl. destruct Hin as [-> | Hin]; auto.
  - intros w [<- | Hw]; auto.
Qed.

Lemma date_partition_In (d : pydate) sums (f : Q) :
  In f (date_partition d sums)
  <-> exists h p, In ((Some d, h), (p, f)) sums.
Proof.
  unfold date_partition. rewrite in_map_iff. split.
  - intros ([[d' h] [p f']] & <- & Hin). apply filter_In in Hin.
    destruct Hin as [Hin Hd]. simpl in Hd. apply key_eqb_eq in Hd.
    subst d'. exists h, p. exact Hin.
  - intros (h & p & Hin). exists ((Some d, h), (p, f)).
    split; [reflexivity|]. apply filter_In. split; [exact Hin|].
    apply key_eqb_refl.
Qed.

Lemma partition_max_unique (totals : list Hourly.row) (d : pydate) (m m' : Q) :
  partition_max totals d m -> partition_max totals d m' -> (m == m')%Q.
Proof.
  intros [(b & Hb & Hd & Hm) Hall] [(b' & Hb' & Hd' & Hm') Hall'].
  apply Qle_antisym.
  - rewrite <- Hm. apply Hall'; assumption.
  - rewrite <- Hm'. apply Hall; assumption.
Qed.

Lemma peak_flag_of_max (df : list Df.row) (b : Hourly.row) :
  In b (hourly_totals df) ->
  exists d m,
    Hourly.date b = Some d
    /\ partition_max (hourly_totals df) d m
    /\ Hourly.is_peak_feed_in_hour b = Some (Qeq_bool (Hourly.grid_feedin b) m).
Proof.
  intros Hin. apply hourly_totals_In in Hin.
  destruct Hin as ([dk hk] & [p f] & Hin & ->).
  pose proof (proj1 (hourly_sums_In df _ _) Hin) as (Hk & _).
  apply hourly_key_present in Hk. destruct Hk as (d & h & [= -> ->]).
  assert (Hf : In f (date_partition d (hourly_sums df))).
  { apply date_partition_In. eauto. }
  destruct (series_max_spec _ _ Hf) as (m & Hmax & Hm & Hall).
  exists d, m. unfold peak_flag. simpl. rewrite Hmax. simpl.
  split; [reflexivity|]. split; [split|reflexivity].
  - apply date_partition_In in Hm. destruct Hm as (h' & p' & Hin').
    eexists. split; [|split].
    + apply hourly_totals_In. eexists _, _. split; [exact Hin' | reflexivity].
    + reflexivity.
    + simpl. reflexivity.
  - intros b' Hb' Hd. apply hourly_totals_In in Hb'.
    destruct Hb' as ([dk' hk'] & [p' f'] & Hin' & ->). simpl in *. subst dk'.
    apply Hall. apply date_partition_In. eauto.
Qed.

(** C2.  A bucket of the hourly totals has a date, the buckets of that date
    have a largest [grid_feedin] total, and the flag of the bucket is true
    exactly when its total equals that largest total, false exactly when it
    does not: every bucket that ties for the largest total is flagged. *)
Theorem peak_flag_correct (df : list Df.row) (b : Hourly.row) :
  In b (hourly_totals df) ->
  exists d,
    Hourly.date b = Some d
    /\ (exists m, partition_max (hourly_totals df) d m)
    /\ forall m, partition_max (hourly_totals df) d m ->
         (Hourly.is_peak_feed_in_hour b = Some true
          <-> (Hourly.grid_feedin b == m)%Q)
         /\ (Hourly.is_peak_feed_in_hour b = Some false
             <-> ~ (Hourly.grid_feedin b == m)%Q).
Proof.
  intros Hin. destruct (peak_flag_of_max df b Hin) as (d & m' & Hd & Hmax & Hflag).
  exists d. split; [exact Hd|]. split; [exists m'; exact Hmax|].
  intros m Hm. pose proof (partition_max_unique _ _ _ _ Hmax Hm) as Heq.
  rewrite Hflag, <- Heq, <- Qeq_bool_iff.
  destruct (Qeq_bool (Hourly.grid_feedin b) m'); split; split; congruence.
Qed.

Lemma peak_flag_correct_witness :
  let b := Hourly.mk (Some d_2024_01_01) (Some 7) 0%Q 3%Q (Some true) in
  exists d,
    Hourly.date b = Some d
    /\ (exists m, partition_max (hourly_totals two_devices) d m)
    /\ forall m, partition_max (hourly_totals two_devices) d m ->
         (Hourly.is_peak_feed_in_hour b = Some true
          <-> (Hourly.grid_feedin b == m)%Q)
         /\ (Hourly.is_peak_feed_in_hour b = Some false
             <-> ~ (Hourly.grid_feedin b == m)%Q).
Proof.
  intros b. apply (peak_flag_correct two_devices b).
  right. right. left. reflexivity.
Defined.

(** ** The example of the specification *)

Example spec_example_cleaned :
  cleaner spec_example
  = [reading "S1" d_2024_01_01 5 (Some 10%Q) (Some 0%Q) (Some 10%Q)].
Proof. reflexivity. Qed.

Example spec_example_hourly :
  hourly_totals (cleaner spec_example)
  = [Hourly.mk (Some d_2024_01_01) (Some 5) 10%Q 0%Q (Some true)].
Proof. reflexivity. Qed.

Example spec_example_summary :
  summary (cleaner spec_example) = [Summary.mk (Some "S1"%string) 10%Q 0%Q].
Proof. reflexivity. Qed.

Example two_devices_hourly :
  hourly_totals two_devices
  = [Hourly.mk (Some d_2024_01_01) (Some 5) (25 # 2)%Q 0%Q (Some false);
     Hourly.mk (Some d_2024_01_01) (Some 6) 4%Q 3%Q (Some true);
     Hourly.mk (Some d_2024_01_01) (Some 7) 0%Q 3%Q (Some true)].
Proof. reflexivity. Qed.

Example untimed_row_has_no_bucket : hourly_totals (cleaner [untimed]) = [].
Proof. reflexivity. Qed.

Example anonymous_row_not_summarised :
  summary (cleaner [anonymous; undated])
  = [Summary.mk (Some "S1"%string) 10%Q 0%Q].
Proof. reflexivity. Qed.

(** * Further properties of the script *)

(** ** Order and uniqueness of the groups *)

Lemma sorted_keys_NoDup {K : Type} `{OrdLaws K} (keys : list K) :
  sorted_keys keys -> NoDup keys.
Proof.
  induction 1 as [|k keys Hs IH Hk]; constructor; [|exact IH].
  intros Hin. rewrite Forall_forall in Hk.
  apply Hk, cmp_Lt_neq in Hin. contradiction Hin. reflexivity.
Qed.

Lemma hourly_totals_keys (df : list Df.row) :
  map (fun b => (Hourly.date b, Hourly.hour b)) (hourly_totals df)
  = map fst (hourly_sums df).
Proof.
  unfold hourly_totals. cbv zeta. rewrite map_map. apply map_ext.
  intros [[d h] a]. reflexivity.
Qed.

Lemma hourly_sums_sorted (df : list Df.row) :
  sorted_keys (map fst (hourly_sums df)).
Proof. apply groupby_sum_sorted. Qed.

(** X1.  The hourly totals come in strictly increasing order of date, then
    hour ([groupby] sorts its keys), so a date and hour have one bucket. *)
Theorem hourly_totals_sorted (df : list Df.row) :
  sorted_keys (map (fun b => (Hourly.date b, Hourly.hour b)) (hourly_totals df))
  /\ (forall b b', In b (hourly_totals df) -> In b' (hourly_totals df) ->
        Hourly.date b = Hourly.date b' -> Hourly.hour b = Hourly.hour b' ->
        b = b').
Proof.
  split.
  - rewrite hourly_totals_keys. apply hourly_sums_sorted.
  - intros b b' Hb Hb' Hd Hh. apply hourly_totals_In in Hb, Hb'.
    destruct Hb as ([d h] & a & Hin & ->).
    destruct Hb' as ([d' h'] & a' & Hin' & ->). simpl in Hd, Hh. subst d' h'.
    pose proof (proj1 (lookup_In hourly_key_isna _ _ _
                         (hourly_sums_sorted df)) Hin) as Ha.
    pose proof (proj1 (lookup_In hourly_key_isna _ _ _
                         (hourly_sums_sorted df)) Hin') as Ha'.
    rewrite Ha in Ha'. injection Ha' as <-. reflexivity.
Qed.

Lemma insert_desc_Permutation (r : Summary.row) (sorted : list Summary.row) :
  Permutation (insert_desc r sorted) (r :: sorted).
Proof.
  induction sorted as [|s rest IH]; simpl; [reflexivity|].
  destruct (Qle_bool (Summary.grid_purchase s) (Summary.grid_purchase r));
    [reflexivity|].
  rewrite IH. apply perm_swap.
Qed.

Lemma sort_values_desc_Permutation (rows : list Summary.row) :
  Permutation (sort_values_desc rows) rows.
Proof.
  induction rows as [|r rows IH]; simpl; [reflexivity|].
  rewrite insert_desc_Permutation, IH. reflexivity.
Qed.

Lemma summary_serials (df : list Df.row) :
  Permutation (map Summary.serial (summary df)) (map fst (serial_sums df)).
Proof.
  unfold summary. rewrite sort_values_desc_Permutation, map_map.
  reflexivity.
Qed.

Lemma serial_sums_In (df : list Df.row) k a :
  In (k, a) (serial_sums df)
  <-> isna k = false
      /\ filter (fun r => key_eqb (Df.serial r) k) df <> []
      /\ a = (nansum (map Df.grid_purchase
                        (filter (fun r => key_eqb (Df.serial r) k) df)),
              nansum (map Df.grid_feedin
                        (filter (fun r => key_eqb (Df.serial r) k) df))).
Proof. apply (frame_groupby_In isna Df.serial). Qed.

Lemma summary_row_In (df : list Df.row) (s : Summary.row) :
  In s (summary df)
  <-> In (Summary.serial s, (Summary.grid_purchase s, Summary.grid_feedin s))
        (serial_sums df).
Proof.
  unfold summary. rewrite sort_values_desc_In, in_map_iff. split.
  - intros ([k [p f]] & <- & Hin). exact Hin.
  - intros Hin. eexists. split; [|exact Hin]. destruct s. reflexivity.
Qed.

Lemma summary_covers (df : list Df.row) (r : Df.row) (serial : string) :
  In r df -> Df.serial r = Some serial ->
  exists s, In s (summary df) /\ Summary.serial s = Some serial.
Proof.
  intros Hin Hr.
  set (g := filter (fun x => key_eqb (Df.serial x) (Some serial)) df).
  exists (Summary.mk (Some serial) (nansum (map Df.grid_purchase g))
            (nansum (map Df.grid_feedin g))).
  split; [|reflexivity]. apply summary_row_In. simpl.
  apply serial_sums_In. repeat split; try reflexivity.
  intros Hnil. assert (Hg : In r g).
  { apply filter_In. split; [exact Hin|]. apply key_eqb_eq. exact Hr. }
  fold g in Hnil. rewrite Hnil in Hg. exact Hg.
Qed.

(** X2.  The summary has one row per serial that occurs in the frame: its
    serials are pairwise different, and a serial has a row exactly when
    some record carries it. *)
Theorem summary_one_row_per_serial (df : list Df.row) :
  NoDup (map Summary.serial (summary df))
  /\ (forall serial : string,
        (exists s, In s (summary df) /\ Summary.serial s = Some serial)
        <-> (exists r, In r df /\ Df.serial r = Some serial)).
Proof.
  split.
  - eapply Permutation_NoDup; [symmetry; apply summary_serials|].
    apply sorted_keys_NoDup. apply groupby_sum_sorted.
  - intros serial. split.
    + intros (s & Hin & Hs). apply summary_In in Hin.
      destruct Hin as (_ & Hg & _).
      destruct (serial_group df s) as [|r g] eqn:G; [congruence|].
      assert (Hr : In r (serial_group df s)) by (rewrite G; left; reflexivity).
      apply serial_group_In in Hr. exists r. rewrite <- Hs. exact Hr.
    + intros (r & Hin & Hr). eapply summary_covers; eassumption.
Qed.

(** ** The flagged bucket of a date *)



(** ** The Cleaner only removes rows *)

Lemma subsequence_trans {A} (l1 l2 l3 : list A) :
  subsequence l1 l2 -> subsequence l2 l3 -> subsequence l1 l3.
Proof.
  intros H12 H23. revert l1 H12.
  induction H23 as [|x s l H23 IH|x s l H23 IH]; intros l1 H12.
  - exact H12.
  - inversion H12; subst; constructor; auto.
  - constructor. auto.
Qed.

Lemma subsequence_In {A} (s l : list A) (x : A) :
  subsequence s l -> In x s -> In x l.
Proof.
  induction 1 as [|y s l Hs IH|y s l Hs IH]; simpl; intuition.
Qed.

Lemma subsequence_length {A} (s l : list A) :
  subsequence s l -> (List.length s <= List.length l)%nat.
Proof. induction 1; simpl; lia. Qed.

Lemma subsequence_filter {A} (f : A -> bool) (l : list A) :
  subsequence (filter f l) l.
Proof.
  induction l as [|x l IH]; simpl; [constructor|].
  destruct (f x); constructor; exact IH.
Qed.

Lemma drop_duplicates_subsequence (df : list Df.row) :
  subsequence (drop_duplicates df) df.
Proof.
  apply select_subsequence. rewrite length_map. apply length_duplicated_from.
Qed.

(** X4.  The Cleaner changes no row and adds none: its output is its input
    with some rows removed and the others in their order, so it is no
    longer than the input and each of its rows is a row of the input. *)
Theorem cleaner_subsequence (df : list Df.row) :
  subsequence (cleaner df) df
  /\ (List.length (cleaner df) <= List.length df)%nat
  /\ (forall r, In r (cleaner df) -> In r df).
Proof.
  assert (Hsub : subsequence (cleaner df) df).
  { unfold cleaner. eapply subsequence_trans.
    - rewrite dropna_filter. apply subsequence_filter.
    - apply drop_duplicates_subsequence. }
  split; [exact Hsub|]. split.
  - apply subsequence_length. exact Hsub.
  - intros r. apply subsequence_In. exact Hsub.
Qed.

(** ** Filters and deduplication commute *)

Section FilterDedup.
Variable keep : Df.row -> bool.
Hypothesis keep_identical :
  forall a b, row_eqb a b = true -> keep a = keep b.

Lemma existsb_filter_keep (r : Df.row) (seen : list Df.row) :
  keep r = true ->
  existsb (row_eqb r) (filter keep seen) = existsb (row_eqb r) seen.
Proof.
  intros Hr. induction seen as [|s seen IH]; [reflexivity|].
  simpl. destruct (keep s) eqn:Es; simpl; rewrite IH; [reflexivity|].
  destruct (row_eqb r s) eqn:E; [|reflexivity].
  apply keep_identical in E. congruence.
Qed.

Lemma filter_dedup_from (seen df : list Df.row) :
  filter keep (dedup_from seen df)
  = dedup_from (filter keep seen) (filter keep df).
Proof.
  revert seen. induction df as [|r df IH]; intros seen; [reflexivity|].
  rewrite dedup_from_cons. cbn [filter]. destruct (keep r) eqn:Er.
  - rewrite dedup_from_cons, existsb_filter_keep by exact Er.
    destruct (existsb (row_eqb r) seen); cbn [filter]; rewrite ?Er, IH;
      cbn [filter]; rewrite Er; reflexivity.
  - destruct (existsb (row_eqb r) seen); cbn [filter]; rewrite ?Er, IH;
      cbn [filter]; rewrite Er; reflexivity.
Qed.

Lemma filter_drop_duplicates (df : list Df.row) :
  filter keep (drop_duplicates df) = drop_duplicates (filter keep df).
Proof. rewrite !drop_duplicates_dedup. apply filter_dedup_from. Qed.

Lemma filter_filter_swap {A} (f g : A -> bool) (l : list A) :
  filter f (filter g l) = filter g (filter f l).
Proof.
  induction l as [|x l IH]; [reflexivity|]. simpl.
  destruct (f x) eqn:Ef, (g x) eqn:Eg; simpl; rewrite ?Ef, ?Eg, IH;
    reflexivity.
Qed.

Lemma filter_cleaner (df : list Df.row) :
  filter keep (cleaner df) = cleaner (filter keep df).
Proof.
  unfold cleaner. rewrite !dropna_filter, filter_filter_swap.
  rewrite filter_drop_duplicates. reflexivity.
Qed.
End FilterDedup.

(** X5.  The two passes of the Cleaner commute: removing the rows without
    energy values before the duplicates gives the same frame. *)
Theorem cleaner_passes_commute (df : list Df.row) :
  dropna (drop_duplicates df) = drop_duplicates (dropna df).
Proof.
  rewrite !dropna_filter. apply filter_drop_duplicates.
  intros a b Hab. rewrite (row_eqb_all_missing _ _ Hab). reflexivity.
Qed.

(** ** Grouping conserves the totals *)




Section Conservation.
Context {K : Type} `{OrdLaws K}.
Variable key_isna : K -> bool.
Variable column : Q * Q -> Q.
Variable cell_of : option Q * option Q -> option Q.
Hypothesis column_add_row :
  forall acc v, column (add_row acc v) = skipna_add (column acc) (cell_of v).
Hypothesis column_zero : column (0%Q, 0%Q) = 0%Q.


End Conservation.




(** ** Groups and the records behind them *)

Lemma nonempty_In {A} (l : list A) : l <> [] -> exists x, In x l.
Proof. destruct l as [|x l]; [congruence|]. intros _. exists x. left. reflexivity. Qed.

(** X8.  No group is empty: every hourly bucket has a record with its date
    and hour, and every row of the summary a record with its serial. *)
Theorem groups_have_records (df : list Df.row) :
  (forall b, In b (hourly_totals df) ->
     exists r, In r df /\ Df.date r = Hourly.date b
               /\ Df.hour r = Hourly.hour b)
  /\ (forall s, In s (summary df) ->
        exists r, In r df /\ Df.serial r = Summary.serial s).
Proof.
  split.
  - intros b Hin. apply hourly_totals_row in Hin.
    destruct Hin as (_ & Hg & _). apply nonempty_In in Hg.
    destruct Hg as (r & Hr). apply hourly_group_In in Hr.
    destruct Hr as [Hr [= Hd Hh]]. exists r. auto.
  - intros s Hin. apply summary_In in Hin.
    destruct Hin as (_ & Hg & _). apply nonempty_In in Hg.
    destruct Hg as (r & Hr). apply serial_group_In in Hr. exists r. exact Hr.
Qed.

Lemma hourly_totals_covers (df : list Df.row) (r : Df.row) d h :
  In r df -> Df.date r = Some d -> Df.hour r = Some h ->
  exists b, In b (hourly_totals df)
            /\ Hourly.date b = Some d /\ Hourly.hour b = Some h.
Proof.
  intros Hin Hd Hh.
  set (k := (Some d, Some h)).
  set (g := filter (fun x => key_eqb (hourly_key x) k) df).
  assert (Hr : In r g).
  { apply filter_In. split; [assumption|]. apply key_eqb_eq.
    unfold hourly_key. rewrite Hd, Hh. reflexivity. }
  assert (Hs : In (k, (nansum (map Df.grid_purchase g),
                       nansum (map Df.grid_feedin g))) (hourly_sums df)).
  { apply hourly_sums_In. repeat split; try reflexivity.
    intros Hnil. fold g in Hnil. rewrite Hnil in Hr. exact Hr. }
  eexists. split.
  - apply hourly_totals_In. eexists _, _. split; [exact Hs | reflexivity].
  - simpl. auto.
Qed.

(** X9.  The hourly totals are empty exactly when every record lacks a
    date or an hour, and the summary is empty exactly when every record
    lacks a serial; an empty frame gives two empty tables. *)
Theorem empty_outputs (df : list Df.row) :
  (hourly_totals df = []
   <-> forall r, In r df -> Df.date r = None \/ Df.hour r = None)
  /\ (summary df = [] <-> forall r, In r df -> Df.serial r = None).
Proof.
  split; split.
  - intros Hnil r Hin.
    destruct (Df.date r) as [d|] eqn:Hd; [|auto].
    destruct (Df.hour r) as [h|] eqn:Hh; [|auto].
    destruct (hourly_totals_covers df r d h Hin Hd Hh) as (b & Hb & _).
    rewrite Hnil in Hb. contradiction.
  - intros Hall. destruct (hourly_totals df) as [|b rest] eqn:E; [reflexivity|].
    assert (Hb : In b (hourly_totals df)) by (rewrite E; left; reflexivity).
    pose proof (hourly_totals_row df b Hb) as (Hk & Hg & _).
    apply nonempty_In in Hg. destruct Hg as (r & Hr).
    apply hourly_group_In in Hr. destruct Hr as [Hr [= Hd Hh]].
    apply hourly_key_present in Hk. destruct Hk as (d & h & [= Hd' Hh']).
    destruct (Hall r Hr); congruence.
  - intros Hnil r Hin. destruct (Df.serial r) as [serial|] eqn:Hs; [|reflexivity].
    destruct (summary_covers df r serial Hin Hs) as (s & Hs' & _).
    rewrite Hnil in Hs'. contradiction.
  - intros Hall. destruct (summary df) as [|s rest] eqn:E; [reflexivity|].
    assert (Hs : In s (summary df)) by (rewrite E; left; reflexivity).
    pose proof (summary_In df s Hs) as (Hne & Hg & _).
    apply nonempty_In in Hg. destruct Hg as (r & Hr).
    apply serial_group_In in Hr. destruct Hr as [Hr Heq].
    rewrite (Hall r Hr) in Heq. congruence.
Qed.

(** ** The hour of a bucket *)

(** X10.  The hour of a bucket is the hour of a timestamp of the frame: when
    the timestamps have their hour between 0 and 23, so has every bucket. *)
Theorem hourly_hours_in_range (df : list Df.row) :
  (forall r t, In r df -> Df.timestamp r = Some t -> 0 <= ts_hour t < 24) ->
  forall b, In b (hourly_totals df) ->
    exists h, Hourly.hour b = Some h /\ 0 <= h < 24.
Proof.
  intros Hrange b Hin. apply hourly_totals_row in Hin.
  destruct Hin as (Hk & Hg & _). apply nonempty_In in Hg.
  destruct Hg as (r & Hr). apply hourly_group_In in Hr.
  destruct Hr as [Hr [= Hd Hh]].
  apply hourly_key_present in Hk. destruct Hk as (d & h & [= Hd' Hh']).
  exists h. split; [exact Hh'|].
  rewrite Hh' in Hh. unfold Df.hour in Hh.
  destruct (Df.timestamp r) as [t|] eqn:Ht; [|discriminate].
  injection Hh as <-. apply (Hrange r t Hr Ht).
Qed.

Lemma hourly_hours_in_range_witness :
  exists h,
    Hourly.hour (Hourly.mk (Some d_2024_01_01) (Some 6) 4%Q 3%Q (Some true))
    = Some h /\ 0 <= h < 24.
Proof.
  apply (hourly_hours_in_range two_devices).
  - intros r t Hin Ht. simpl in Hin.
    destruct Hin as [<- | [<- | [<- | [<- | []]]]];
      injection Ht as <-; simpl; lia.
  - right. left. reflexivity.
Defined.

(** ** Rows that the aggregations drop, before and after cleaning *)

Lemma row_eqb_keys (a b : Df.row) :
  row_eqb a b = true ->
  isna (Df.serial a) = isna (Df.serial b)
  /\ isna (Df.date a) = isna (Df.date b)
  /\ isna (Df.hour a) = isna (Df.hour b).
Proof.
  unfold row_eqb. rewrite !andb_true_iff.
  intros [[[[[Hs Ht] Hd] _] _] _].
  apply option_eqb_isna in Hs, Ht, Hd. unfold Df.hour.
  repeat split; try assumption.
  destruct (Df.timestamp a), (Df.timestamp b); simpl in *; congruence.
Qed.

Lemma summary_of_sums (df df' : list Df.row) :
  serial_sums df = serial_sums df' -> summary df = summary df'.
Proof. unfold summary. intros ->. reflexivity. Qed.

(** X11.  Records that an aggregation drops for a missing key have no
    effect through the Cleaner either: removing the records without date or
    hour from the input of the Cleaner leaves the hourly totals unchanged,
    and removing those without serial leaves the summary unchanged. *)
Theorem aggregates_ignore_unkeyed_input (df : list Df.row) :
  hourly_totals (cleaner df)
  = hourly_totals
      (cleaner (filter (fun r => negb (isna (Df.date r) || isna (Df.hour r)))
                  df))
  /\ summary (cleaner df)
     = summary (cleaner (filter (fun r => negb (isna (Df.serial r))) df)).
Proof.
  split.
  - rewrite <- filter_cleaner.
    + apply hourly_totals_of_sums.
      apply (frame_groupby_filter hourly_key_isna hourly_key).
    + intros a b Hab. apply row_eqb_keys in Hab.
      destruct Hab as (_ & -> & ->). reflexivity.
  - rewrite <- filter_cleaner.
    + apply summary_of_sums.
      apply (frame_groupby_filter isna Df.serial).
    + intros a b Hab. apply row_eqb_keys in Hab.
      destruct Hab as (-> & _). reflexivity.
Qed.

(** ** The largest purchase comes first *)




(** ** From raw rows to the cleaned table *)


(** ** Frames without duplicates *)


